(** * Retail ETL pipeline (notebooks/retail_etl.py)

    A shallow embedding of the dataframe transformations of the script:
    cleaning (step 5), time-based features (step 6), the four analytics
    tables (step 7) and the business summary (step 9).

    Modelling conventions.
    - A DataFrame is a [list] of rows; a nullable column is an [option].
    - Timestamps are microseconds since the epoch, read in a UTC session.
    - The [double] columns (Price, TotalAmount) are exact rationals [Qc]:
      rounding error of binary floating point is not part of the model.
    - Spark does not fix the order in which rows reach [dropDuplicates];
      the cleaned table is therefore a relation ([Cleaning]), with the
      in-order run ([df_cleaned]) as one of its outcomes. *)

From Stdlib Require Import ZArith QArith Qcanon Qround Qabs Lqa.
From stdpp Require Import base decidable option strings numbers list.

Local Open Scope Z_scope.

(** ** Column values *)

Definition Timestamp := Z.

(** A cell of the InvoiceDate column as pandas hands it to Spark. *)
Inductive DateCell :=
  | DateNull
  | DateStamp (t : Timestamp)
  | DateText (s : string).

(** A row of [df_raw]: the eight spreadsheet columns and [fiscal_year]. *)
Record RawRow := mkRawRow {
  raw_Invoice : option string;
  raw_StockCode : option string;
  raw_Description : option string;
  raw_Quantity : option Z;
  raw_InvoiceDate : DateCell;
  raw_Price : option Qc;
  raw_CustomerID : option Z;
  raw_Country : option string;
  raw_fiscal_year : string
}.

(** A row of [df_cleaned]: InvoiceDate is now a timestamp and TotalAmount
    has been added. *)
Record Row := mkRow {
  Invoice : option string;
  StockCode : option string;
  Description : option string;
  Quantity : option Z;
  InvoiceDate : option Timestamp;
  Price : option Qc;
  CustomerID : option Z;
  Country : option string;
  fiscal_year : string;
  TotalAmount : option Qc
}.

#[global] Instance Row_eq_dec : EqDecision Row.
Proof. solve_decision. Defined.

(** A row of [df_enriched]: the cleaned row and the six derived columns. *)
Record EnrichedRow := mkEnrichedRow {
  base : Row;
  Year : option Z;
  Month : option Z;
  Quarter : option Z;
  DayName : option string;
  Hour : option Z;
  MonthName : option string
}.

(** ** Spark column functions *)

(** [round(x, 2)] on a double: HALF_UP, i.e. ties go away from zero. *)
Definition half_up (x : Q) : Z :=
  if Qle_bool 0 x then Qfloor (x + (1 # 2)) else - Qfloor (- x + (1 # 2)).

Definition round2 (x : Qc) : Qc :=
  Q2Qc (half_up (this x * (100 # 1)) # 100).

(** [col > 0]: a null comparison is null, and [filter] drops the row. *)
Definition pos_long (q : option Z) : Prop :=
  match q with Some z => 0 < z | None => False end.

Definition pos_double (p : option Qc) : Prop :=
  match p with Some x => (0 < x)%Qc | None => False end.

#[global] Instance pos_long_dec q : Decision (pos_long q).
Proof. destruct q; simpl; apply _. Defined.

#[global] Instance pos_double_dec p : Decision (pos_double p).
Proof. destruct p; simpl; apply _. Defined.

(** [col("Quantity") * col("Price")], null if either side is null. *)
Definition times (q : option Z) (p : option Qc) : option Qc :=
  match q, p with
  | Some z, Some x => Some (Qc_of_Z z * x)%Qc
  | _, _ => None
  end.

(** Calendar arithmetic on the proleptic Gregorian calendar. *)
Definition MICROS_PER_DAY : Z := 86400000000.
Definition MICROS_PER_HOUR : Z := 3600000000.

Definition to_date (t : Timestamp) : Z := t / MICROS_PER_DAY.

(** Year, month and day of a day number (days since 1970-01-01). *)
Definition civil (days : Z) : Z * Z * Z :=
  let z := days + 719468 in
  let era := z / 146097 in
  let doe := z - era * 146097 in
  let yoe := (doe - doe / 1460 + doe / 36524 - doe / 146096) / 365 in
  let doy := doe - (365 * yoe + yoe / 4 - yoe / 100) in
  let mp := (5 * doy + 2) / 153 in
  let d := doy - (153 * mp + 2) / 5 + 1 in
  let m := if mp <? 10 then mp + 3 else mp - 9 in
  let y := yoe + era * 400 + (if m <=? 2 then 1 else 0) in
  (y, m, d).

Definition year (t : option Timestamp) : option Z :=
  (λ t, (civil (to_date t)).1.1) <$> t.

Definition month (t : option Timestamp) : option Z :=
  (λ t, (civil (to_date t)).1.2) <$> t.

Definition quarter (t : option Timestamp) : option Z :=
  (λ m, (m - 1) / 3 + 1) <$> month t.

Definition hour (t : option Timestamp) : option Z :=
  (λ t, (t mod MICROS_PER_DAY) / MICROS_PER_HOUR) <$> t.

Definition day_names : list string :=
  ["Thursday"; "Friday"; "Saturday"; "Sunday"; "Monday"; "Tuesday";
   "Wednesday"]%string.

Definition month_names : list string :=
  ["January"; "February"; "March"; "April"; "May"; "June"; "July";
   "August"; "September"; "October"; "November"; "December"]%string.

(** [date_format(c, "EEEE")]: day zero of the epoch was a Thursday. *)
Definition date_format_EEEE (t : option Timestamp) : option string :=
  (λ t, default ""%string (day_names !! Z.to_nat (to_date t mod 7))) <$> t.

(** [date_format(c, "MMMM")]. *)
Definition date_format_MMMM (t : option Timestamp) : option string :=
  (λ m, default ""%string (month_names !! Z.to_nat (m - 1))) <$> month t.

(** [datediff(end, start)]: whole days between the two dates. *)
Definition datediff (e s : option Timestamp) : option Z :=
  match e, s with
  | Some e, Some s => Some (to_date e - to_date s)
  | _, _ => None
  end.

(** ** Spark aggregate functions (nulls are skipped) *)

Definition non_null {A} (xs : list (option A)) : list A := omap id xs.

(** [count(col)]: the number of non-null values. *)
Definition count {A} (xs : list (option A)) : nat := length (non_null xs).

(** [countDistinct(col)]: the number of distinct non-null values. *)
Definition countDistinct `{EqDecision A} (xs : list (option A)) : nat :=
  length (remove_dups (non_null xs)).

(** [select(col).distinct().count()]: null is a value like any other. *)
Definition distinct_count `{EqDecision A} (xs : list A) : nat :=
  length (remove_dups xs).

(** [sum(col)]: null when no value is present. *)
Fixpoint sum_double (xs : list (option Qc)) : option Qc :=
  match xs with
  | [] => None
  | None :: xs' => sum_double xs'
  | Some v :: xs' => Some (v + default 0%Qc (sum_double xs'))%Qc
  end.

Fixpoint sum_long (xs : list (option Z)) : option Z :=
  match xs with
  | [] => None
  | None :: xs' => sum_long xs'
  | Some v :: xs' => Some (v + default 0 (sum_long xs'))
  end.

(** [max(col)] on timestamps: null when no value is present. *)
Fixpoint max_ts (xs : list (option Timestamp)) : option Timestamp :=
  match xs with
  | [] => None
  | None :: xs' => max_ts xs'
  | Some v :: xs' =>
      match max_ts xs' with
      | Some m => Some (Z.max v m)
      | None => Some v
      end
  end.

(** ** DataFrame operations *)

Section DataFrame.
Context {A K : Type} `{EqDecision K}.
Variable key : A → K.

(** [dropDuplicates(cols)]: the first row met for each key is kept.
    Two nulls are the same key value. *)
Fixpoint dedup_from (seen : list K) (l : list A) : list A :=
  match l with
  | [] => []
  | r :: l' =>
      if decide (key r ∈ seen) then dedup_from seen l'
      else r :: dedup_from (key r :: seen) l'
  end.

Definition dropDuplicates (l : list A) : list A := dedup_from [] l.

(** [groupBy(cols)]: one group per distinct key, nulls included. *)
Definition group_keys (l : list A) : list K := remove_dups (key <$> l).

Definition group (k : K) (l : list A) : list A :=
  filter (λ r, key r = k) l.

(** [groupBy(cols).agg(...)]: one output row per group. *)
Definition groupBy_agg {B} (agg : K → list A → B) (l : list A) : list B :=
  (λ k, agg k (group k l)) <$> group_keys l.
End DataFrame.

(** ** The pipeline *)

Section Pipeline.
(** Spark's cast of a string cell to a timestamp; null when the text is
    not a timestamp. *)
Variable cast_timestamp : string → option Timestamp.

(** [to_timestamp(col("InvoiceDate"))]. *)
Definition to_timestamp (c : DateCell) : option Timestamp :=
  match c with
  | DateNull => None
  | DateStamp t => Some t
  | DateText s => cast_timestamp s
  end.

(** *** Step 5: clean data *)

(** The test of [.dropna(subset=["Invoice", "StockCode", "Quantity", "Price"])] *)
Definition complete (r : RawRow) : Prop :=
  is_Some (raw_Invoice r) ∧ is_Some (raw_StockCode r) ∧
  is_Some (raw_Quantity r) ∧ is_Some (raw_Price r).

#[global] Instance complete_dec r : Decision (complete r).
Proof. unfold complete. apply _. Defined.

Definition dropna (df : list RawRow) : list RawRow := filter complete df.

(** The tests of the two [filter] calls together. *)
Definition positive (r : RawRow) : Prop :=
  pos_long (raw_Quantity r) ∧ pos_double (raw_Price r).

(** [.filter(col("Quantity") > 0)] *)
Definition filter_Quantity (df : list RawRow) : list RawRow :=
  filter (λ r, pos_long (raw_Quantity r)) df.

(** [.filter(col("Price") > 0)] *)
Definition filter_Price (df : list RawRow) : list RawRow :=
  filter (λ r, pos_double (raw_Price r)) df.

(** The two [withColumn] calls: InvoiceDate is replaced by its timestamp
    and TotalAmount is appended. *)
Definition withColumns (r : RawRow) : Row :=
  {| Invoice := raw_Invoice r;
     StockCode := raw_StockCode r;
     Description := raw_Description r;
     Quantity := raw_Quantity r;
     InvoiceDate := to_timestamp (raw_InvoiceDate r);
     Price := raw_Price r;
     CustomerID := raw_CustomerID r;
     Country := raw_Country r;
     fiscal_year := raw_fiscal_year r;
     TotalAmount := round2 <$> times (raw_Quantity r) (raw_Price r) |}.

(** The rows that reach [dropDuplicates]. *)
Definition candidates (df_raw : list RawRow) : list Row :=
  withColumns <$> filter_Price (filter_Quantity (dropna df_raw)).

(** The key of [.dropDuplicates(["Invoice", "StockCode", "InvoiceDate"])] *)
Definition dedup_key (r : Row)
    : option string * option string * option Timestamp :=
  (Invoice r, StockCode r, InvoiceDate r).

(** The run in which the rows reach [dropDuplicates] in input order. *)
Definition df_cleaned (df_raw : list RawRow) : list Row :=
  dropDuplicates dedup_key (candidates df_raw).

(** Every outcome of step 5: the candidates reach [dropDuplicates] in
    some order. *)
Definition Cleaning (df_raw : list RawRow) (cleaned : list Row) : Prop :=
  ∃ arrival, arrival ≡ₚ candidates df_raw ∧
             cleaned = dropDuplicates dedup_key arrival.
End Pipeline.

(** *** Step 6: add features *)

Definition add_features (r : Row) : EnrichedRow :=
  {| base := r;
     Year := year (InvoiceDate r);
     Month := month (InvoiceDate r);
     Quarter := quarter (InvoiceDate r);
     DayName := date_format_EEEE (InvoiceDate r);
     Hour := hour (InvoiceDate r);
     MonthName := date_format_MMMM (InvoiceDate r) |}.

Definition df_enriched (cleaned : list Row) : list EnrichedRow :=
  add_features <$> cleaned.

(** The errors named by the design; the stage below raises none. *)
Inductive StageError := MalformedTimestampError | InvalidTimestampError.

(** Step 6 as a stage with an outcome: every Spark function it uses maps
    null to null, so the stage always returns a table. *)
Definition Enrichment (cleaned : list Row) : StageError + list EnrichedRow :=
  inr (df_enriched cleaned).

(** Schemas. [withColumn] replaces a column of the same name and appends
    a new one otherwise. *)
Definition withColumn_schema (name : string) (cols : list string)
    : list string :=
  if decide (name ∈ cols) then cols else cols ++ [name].

Definition raw_columns : list string :=
  ["Invoice"; "StockCode"; "Description"; "Quantity"; "InvoiceDate"; "Price";
   "Customer ID"; "Country"; "fiscal_year"]%string.

Definition cleaned_columns : list string :=
  withColumn_schema "TotalAmount" (withColumn_schema "InvoiceDate" raw_columns).

Definition enriched_columns : list string :=
  withColumn_schema "MonthName" (withColumn_schema "Hour"
    (withColumn_schema "DayName" (withColumn_schema "Quarter"
      (withColumn_schema "Month" (withColumn_schema "Year" cleaned_columns))))).

(** *** Step 7: analytics *)

Record CustomerSummary := mkCustomerSummary {
  cs_CustomerID : option Z;
  LastPurchaseDate : option Timestamp;
  Frequency : nat;
  MonetaryValue : option Qc;
  Recency : option Z
}.

Record ProductSummary := mkProductSummary {
  ps_StockCode : option string;
  ps_Description : option string;
  TotalQuantitySold : option Z;
  ps_TotalRevenue : option Qc;
  ps_UniqueCustomers : nat
}.

Record CountrySummary := mkCountrySummary {
  co_Country : option string;
  TotalRevenue : option Qc;
  TotalOrders : nat;
  UniqueCustomers : nat
}.

Record MonthlyTrend := mkMonthlyTrend {
  mt_fiscal_year : string;
  mt_Year : option Z;
  mt_Month : option Z;
  mt_MonthName : option string;
  MonthlyRevenue : option Qc;
  MonthlyOrders : nat
}.

(** [max_date = df_cleaned.agg(max("InvoiceDate")).collect()[0][0]] *)
Definition max_date (cleaned : list Row) : option Timestamp :=
  max_ts (InvoiceDate <$> cleaned).

Definition customer_rfm (cleaned : list Row) : list CustomerSummary :=
  groupBy_agg CustomerID
    (λ k g,
       let last := max_ts (InvoiceDate <$> g) in
       {| cs_CustomerID := k;
          LastPurchaseDate := last;
          Frequency := count (Invoice <$> g);
          MonetaryValue := sum_double (TotalAmount <$> g);
          Recency := datediff (max_date cleaned) last |})
    cleaned.

Definition product_analysis (cleaned : list Row) : list ProductSummary :=
  groupBy_agg (λ r, (StockCode r, Description r))
    (λ k g,
       {| ps_StockCode := k.1;
          ps_Description := k.2;
          TotalQuantitySold := sum_long (Quantity <$> g);
          ps_TotalRevenue := sum_double (TotalAmount <$> g);
          ps_UniqueCustomers := countDistinct (CustomerID <$> g) |})
    cleaned.

Definition country_sales (cleaned : list Row) : list CountrySummary :=
  groupBy_agg Country
    (λ k g,
       {| co_Country := k;
          TotalRevenue := sum_double (TotalAmount <$> g);
          TotalOrders := count (Invoice <$> g);
          UniqueCustomers := countDistinct (CustomerID <$> g) |})
    cleaned.

Definition monthly_trends (enriched : list EnrichedRow) : list MonthlyTrend :=
  groupBy_agg (λ e, (fiscal_year (base e), Year e, Month e, MonthName e))
    (λ k g,
       {| mt_fiscal_year := k.1.1.1;
          mt_Year := k.1.1.2;
          mt_Month := k.1.2;
          mt_MonthName := k.2;
          MonthlyRevenue := sum_double ((TotalAmount ∘ base) <$> g);
          MonthlyOrders := count ((Invoice ∘ base) <$> g) |})
    enriched.

(** *** Step 9: summary *)

Definition total_revenue (cleaned : list Row) : option Qc :=
  sum_double (TotalAmount <$> cleaned).

Definition total_orders (cleaned : list Row) : nat :=
  distinct_count (Invoice <$> cleaned).

Definition unique_customers (cleaned : list Row) : nat :=
  distinct_count (CustomerID <$> cleaned).

Definition unique_products (cleaned : list Row) : nat :=
  distinct_count (StockCode <$> cleaned).

(** The six columns added by step 6. *)
Definition feature_columns : list string :=
  ["Year"; "Month"; "Quarter"; "DayName"; "Hour"; "MonthName"]%string.

(** What step 6 gives a row without, and a row with, a timestamp. *)
Definition lacks_timestamp (e : EnrichedRow) : Prop :=
  Year e = None ∧ Month e = None ∧ Quarter e = None ∧
  DayName e = None ∧ Hour e = None ∧ MonthName e = None.

Definition has_features (e : EnrichedRow) : Prop :=
  is_Some (Year e) ∧ is_Some (Month e) ∧ is_Some (Quarter e) ∧
  is_Some (DayName e) ∧ is_Some (Hour e) ∧ is_Some (MonthName e).

(** The distinct non-null customers of a group of rows, [n] of them. *)
Definition distinct_customers (g : list Row) (n : nat) : Prop :=
  ∃ ids : list Z,
    NoDup ids ∧ (∀ c, c ∈ ids ↔ ∃ r, r ∈ g ∧ CustomerID r = Some c) ∧
    n = length ids.

(** ** Runs *)

(** The five tables of a run that are compared between runs. *)
Record Outputs := mkOutputs {
  out_cleaned : list Row;
  out_customer_rfm : list CustomerSummary;
  out_product_analysis : list ProductSummary;
  out_country_sales : list CountrySummary;
  out_monthly_trends : list MonthlyTrend
}.

Definition analytics (cleaned : list Row) : Outputs :=
  {| out_cleaned := cleaned;
     out_customer_rfm := customer_rfm cleaned;
     out_product_analysis := product_analysis cleaned;
     out_country_sales := country_sales cleaned;
     out_monthly_trends := monthly_trends (df_enriched cleaned) |}.

Definition Run (cast_timestamp : string → option Timestamp)
    (df_raw : list RawRow) (o : Outputs) : Prop :=
  ∃ cleaned, Cleaning cast_timestamp df_raw cleaned ∧ o = analytics cleaned.

(** Equality of the tables of two runs up to row order. *)
Definition same_tables (o1 o2 : Outputs) : Prop :=
  out_cleaned o1 ≡ₚ out_cleaned o2 ∧
  out_customer_rfm o1 ≡ₚ out_customer_rfm o2 ∧
  out_product_analysis o1 ≡ₚ out_product_analysis o2 ∧
  out_country_sales o1 ≡ₚ out_country_sales o2 ∧
  out_monthly_trends o1 ≡ₚ out_monthly_trends o2.

(** Candidate rows that share a key are the same row. *)
Definition collisions_identical (cs : list Row) : Prop :=
  ∀ c c', c ∈ cs → c' ∈ cs → dedup_key c = dedup_key c' → c = c'.

(** ** Steps 3 and 4: the two sheets *)

(** A row of a sheet as [pd.read_excel] returns it. *)
Record SheetRow := mkSheetRow {
  sh_Invoice : option string;
  sh_StockCode : option string;
  sh_Description : option string;
  sh_Quantity : option Z;
  sh_InvoiceDate : DateCell;
  sh_Price : option Qc;
  sh_CustomerID : option Z;
  sh_Country : option string
}.

(** [df['fiscal_year'] = label] *)
Definition assign_fiscal_year (label : string) (r : SheetRow) : RawRow :=
  {| raw_Invoice := sh_Invoice r;
     raw_StockCode := sh_StockCode r;
     raw_Description := sh_Description r;
     raw_Quantity := sh_Quantity r;
     raw_InvoiceDate := sh_InvoiceDate r;
     raw_Price := sh_Price r;
     raw_CustomerID := sh_CustomerID r;
     raw_Country := sh_Country r;
     raw_fiscal_year := label |}.

(** [pd.concat([df_2009, df_2010], ignore_index=True)] after the two
    assignments of [fiscal_year]. *)
Definition df_combined (df_2009 df_2010 : list SheetRow) : list RawRow :=
  (assign_fiscal_year "2009-2010" <$> df_2009) ++
  (assign_fiscal_year "2010-2011" <$> df_2010).

(** [spark.createDataFrame(df_combined)]: the same rows. *)
Definition df_raw (df_2009 df_2010 : list SheetRow) : list RawRow :=
  df_combined df_2009 df_2010.

Definition fiscal_years : list string := ["2009-2010"; "2010-2011"]%string.

(** ** Step 8: partitioned writes *)

(** [.write.partitionBy(cols)]: one directory per value of the partition
    columns, holding the rows with that value. *)
Definition partitionBy {A K} `{EqDecision K} (key : A → K) (l : list A)
    : list (K * list A) :=
  groupBy_agg key (λ k g, (k, g)) l.

(** The layout of [retail_cleaned] and of [retail_enriched]. *)
Definition retail_cleaned (cleaned : list Row) : list (string * list Row) :=
  partitionBy fiscal_year cleaned.

Definition retail_enriched (enriched : list EnrichedRow)
    : list (string * option Z * list EnrichedRow) :=
  partitionBy (λ e, (fiscal_year (base e), Month e)) enriched.

(** The single filter that step 5's [dropna] and two [filter] calls
    amount to. *)
Definition keeps (r : RawRow) : Prop :=
  is_Some (raw_Invoice r) ∧ is_Some (raw_StockCode r) ∧
  pos_long (raw_Quantity r) ∧ pos_double (raw_Price r).

#[global] Instance keeps_dec r : Decision (keeps r).
Proof. unfold keeps. apply _. Defined.

(** ** Sample data *)

(** A stand-in for Spark's cast: no text is a timestamp. *)
Definition cast_none : string → option Timestamp := λ _, None.

Definition ts_2010_12_01_0826 : Timestamp := 1291191960000000.

Definition sample_raw (inv code : string) (q : Z) (p : Qc) (d : DateCell)
    (cust : option Z) (country : string) : RawRow :=
  mkRawRow (Some inv) (Some code) (Some "item"%string) (Some q) d (Some p)
           cust (Some country) "2009-2010".

Definition row_a1_q1 : RawRow :=
  sample_raw "A1" "X" 1 (Q2Qc 3) (DateStamp ts_2010_12_01_0826) (Some 17850)
             "United Kingdom".

Definition row_a1_q2 : RawRow :=
  sample_raw "A1" "X" 2 (Q2Qc 3) (DateStamp ts_2010_12_01_0826) (Some 17850)
             "United Kingdom".

Definition row_a1_y : RawRow :=
  sample_raw "A1" "Y" 2 (Q2Qc (255 # 100)) (DateStamp ts_2010_12_01_0826) None
             "United Kingdom".

Definition row_no_date : RawRow :=
  sample_raw "A2" "X" 2 (Q2Qc (255 # 100)) DateNull None "France".

Definition sample_pair := [row_a1_q1; row_a1_q2].

Definition sample_mixed := [row_a1_q1; row_a1_y; row_no_date].

Definition sample_customer : CustomerSummary :=
  {| cs_CustomerID := Some 17850;
     LastPurchaseDate := Some ts_2010_12_01_0826;
     Frequency := 1;
     MonetaryValue := Some (Q2Qc 3);
     Recency := Some 0 |}.

Definition sample_country : CountrySummary :=
  {| co_Country := Some "United Kingdom"%string;
     TotalRevenue := Some (Q2Qc (81 # 10));
     TotalOrders := 2;
     UniqueCustomers := 1 |}.

Definition sample_run : Outputs :=
  analytics (dropDuplicates dedup_key (candidates cast_none sample_mixed)).

Definition sample_run_reversed : Outputs :=
  analytics (dropDuplicates dedup_key
               (reverse (candidates cast_none sample_mixed))).

Definition ts_2010_12_04_0826 : Timestamp := 1291451160000000.

Definition row_later : RawRow :=
  sample_raw "A3" "Z" 1 (Q2Qc 1) (DateStamp ts_2010_12_04_0826) (Some 13085)
             "France".

Definition row_return : RawRow :=
  sample_raw "C4" "X" (-5) (Q2Qc 3) (DateStamp ts_2010_12_01_0826)
             (Some 17850) "United Kingdom".

Definition sample_dated := [row_a1_q1; row_later].

Definition sample_early_customer : CustomerSummary :=
  {| cs_CustomerID := Some 17850;
     LastPurchaseDate := Some ts_2010_12_01_0826;
     Frequency := 1;
     MonetaryValue := Some (Q2Qc 3);
     Recency := Some 3 |}.

Definition sample_late_customer : CustomerSummary :=
  {| cs_CustomerID := Some 13085;
     LastPurchaseDate := Some ts_2010_12_04_0826;
     Frequency := 1;
     MonetaryValue := Some (Q2Qc 1);
     Recency := Some 0 |}.

Definition sheet_row (inv code : string) (q : Z) (p : Qc) (t : Timestamp)
    : SheetRow :=
  mkSheetRow (Some inv) (Some code) (Some "item"%string) (Some q)
             (DateStamp t) (Some p) None (Some "France"%string).

Definition sample_sheet_2009 : list SheetRow :=
  [sheet_row "A1" "X" 1 (Q2Qc 3) ts_2010_12_01_0826].

Definition sample_sheet_2010 : list SheetRow :=
  [sheet_row "A3" "Z" 2 (Q2Qc 1) ts_2010_12_04_0826;
   sheet_row "C4" "X" (-5) (Q2Qc 3) ts_2010_12_04_0826].

(** * Properties *)

(** ** [dropDuplicates] and [groupBy] *)

Section DataFrameFacts.
Context {A K : Type} `{EqDecision K}.
Variable key : A → K.

Lemma dedup_from_elem seen l r :
  r ∈ dedup_from key seen l → r ∈ l ∧ key r ∉ seen.
Proof.
  revert seen. induction l as [|x l IH]; intros seen; simpl.
  - by intros ?%elem_of_nil.
  - case_decide as Hx.
    + intros [? ?]%IH. split; [by right | done].
    + intros [->|Hr]%elem_of_cons; [split; [by left | done]|].
      apply IH in Hr as [? Hn]. split; [by right|].
      intros ?. apply Hn. by right.
Qed.

Lemma dedup_from_cover seen l r :
  r ∈ l → key r ∉ seen →
  ∃ r', r' ∈ dedup_from key seen l ∧ key r' = key r.
Proof.
  revert seen. induction l as [|x l IH]; intros seen; simpl.
  - by intros ?%elem_of_nil.
  - intros [->|Hr]%elem_of_cons Hn.
    + rewrite decide_False by done. exists x. split; [by left | done].
    + case_decide as Hx; [by apply IH|].
      destruct (decide (key r = key x)) as [Heq|Hne].
      * exists x. split; [by left | done].
      * destruct (IH (key x :: seen) Hr) as (r' & ? & ?).
        { intros [?|?]%elem_of_cons; done. }
        exists r'. split; [by right | done].
Qed.

Lemma dedup_from_NoDup seen l : NoDup (key <$> dedup_from key seen l).
Proof.
  revert seen. induction l as [|x l IH]; intros seen; simpl.
  - constructor.
  - case_decide as Hx; [apply IH|].
    csimpl. constructor; [|apply IH].
    intros (r & Hk & Hr)%list_elem_of_fmap.
    apply dedup_from_elem in Hr as [_ Hn]. apply Hn. rewrite Hk. by left.
Qed.

Lemma dropDuplicates_elem l r : r ∈ dropDuplicates key l → r ∈ l.
Proof. by intros [? _]%dedup_from_elem. Qed.

Lemma dropDuplicates_cover l r :
  r ∈ l → ∃ r', r' ∈ dropDuplicates key l ∧ key r' = key r.
Proof. intros Hr. apply dedup_from_cover; [done|]. by intros ?%elem_of_nil. Qed.

Lemma dropDuplicates_NoDup l : NoDup (key <$> dropDuplicates key l).
Proof. apply dedup_from_NoDup. Qed.

Lemma dropDuplicates_keys l k :
  k ∈ key <$> dropDuplicates key l ↔ k ∈ key <$> l.
Proof.
  rewrite !list_elem_of_fmap. split.
  - intros (r & -> & Hr). exists r. split; [done|].
    by apply dropDuplicates_elem.
  - intros (r & -> & Hr).
    destruct (dropDuplicates_cover l r Hr) as (r' & ? & ?). by exists r'.
Qed.

(** Rows with pairwise distinct keys: two rows with one key are one row. *)
Lemma NoDup_key_inj l r r' :
  NoDup (key <$> l) → r ∈ l → r' ∈ l → key r = key r' → r = r'.
Proof.
  induction l as [|x l IH]; simpl.
  - by intros _ ?%elem_of_nil.
  - csimpl. intros [Hx Hl]%NoDup_cons.
    intros [->|Hr]%elem_of_cons [->|Hr']%elem_of_cons Hk; [done| | |by apply IH].
    + destruct Hx. rewrite Hk. by apply list_elem_of_fmap_2.
    + destruct Hx. rewrite <-Hk. by apply list_elem_of_fmap_2.
Qed.

Lemma group_length_NoDup l k :
  NoDup (key <$> l) → k ∈ key <$> l → length (group key k l) = 1%nat.
Proof.
  unfold group. induction l as [|x l IH]; simpl.
  - by intros _ ?%elem_of_nil.
  - csimpl. intros [Hx Hl]%NoDup_cons Hk.
    destruct (decide (key x = k)) as [<-|Hne].
    + rewrite filter_cons_True by done. simpl. f_equal.
      rewrite (elem_of_nil_inv (filter (λ r, key r = key x) l)); [done|].
      intros r. rewrite list_elem_of_filter. intros [Hr ?]. apply Hx.
      rewrite <-Hr. by apply list_elem_of_fmap_2.
    + rewrite filter_cons_False by done. apply IH; [done|].
      apply elem_of_cons in Hk as [?|?]; [congruence | done].
Qed.

Lemma group_elem l k r : r ∈ group key k l ↔ key r = k ∧ r ∈ l.
Proof. unfold group. by rewrite list_elem_of_filter. Qed.

Lemma group_keys_elem l k :
  k ∈ group_keys key l ↔ ∃ r, r ∈ l ∧ key r = k.
Proof.
  unfold group_keys. rewrite elem_of_remove_dups, list_elem_of_fmap.
  split; [intros (r & -> & ?) | intros (r & ? & <-)]; by exists r.
Qed.

Lemma groupBy_agg_elem {B} (agg : K → list A → B) l b :
  b ∈ groupBy_agg key agg l ↔
  ∃ k, k ∈ group_keys key l ∧ b = agg k (group key k l).
Proof.
  unfold groupBy_agg. rewrite list_elem_of_fmap.
  split; intros (k & ? & ?); by exists k.
Qed.
End DataFrameFacts.

(** ** Rounding *)

(** [half_up] is within one half of its argument. *)
Lemma half_up_near x : (Qabs (inject_Z (half_up x) - x) <= 1 # 2)%Q.
Proof.
  unfold half_up. apply Qabs_Qle_condition.
  destruct (Qle_bool 0 x).
  - pose proof (Qfloor_le (x + (1 # 2))) as Hle.
    pose proof (Qlt_floor (x + (1 # 2))) as Hlt.
    rewrite inject_Z_plus in Hlt. change (inject_Z 1) with 1%Q in Hlt.
    split; lra.
  - pose proof (Qfloor_le (- x + (1 # 2))) as Hle.
    pose proof (Qlt_floor (- x + (1 # 2))) as Hlt.
    rewrite inject_Z_plus in Hlt. change (inject_Z 1) with 1%Q in Hlt.
    rewrite inject_Z_opp. split; lra.
Qed.

(** [round2 x] is a whole number of hundredths within half a hundredth of
    [x]. *)
Lemma round2_near (x : Qc) :
  (Qabs (this (round2 x) - this x) <= 1 # 200)%Q.
Proof.
  unfold round2. change (this (Q2Qc ?q)) with (Qred q). rewrite Qred_correct.
  pose proof (half_up_near (this x * (100 # 1))) as H.
  apply Qabs_Qle_condition in H. apply Qabs_Qle_condition.
  set (n := half_up (this x * (100 # 1))) in *.
  assert ((n # 100) == inject_Z n * (1 # 100))%Q as ->.
  { unfold Qeq, Qmult, inject_Z. simpl. lia. }
  split; lra.
Qed.

(** ** Step 5: the cleaned table *)

Section CleaningFacts.
Variable cast_timestamp : string → option Timestamp.

Lemma candidates_elem df_raw c :
  c ∈ candidates cast_timestamp df_raw ↔
  ∃ r, c = withColumns cast_timestamp r ∧ r ∈ df_raw ∧
       complete r ∧ positive r.
Proof.
  unfold candidates, filter_Price, filter_Quantity, dropna, positive.
  rewrite list_elem_of_fmap. split.
  - intros (r & -> & Hr). exists r.
    rewrite !list_elem_of_filter in Hr. tauto.
  - intros (r & -> & Hr & Hc & Hp). exists r.
    rewrite !list_elem_of_filter. tauto.
Qed.

Lemma Cleaning_elem df_raw cleaned c :
  Cleaning cast_timestamp df_raw cleaned → c ∈ cleaned →
  c ∈ candidates cast_timestamp df_raw.
Proof.
  intros (arrival & Hp & ->) Hc. rewrite <-Hp.
  by eapply dropDuplicates_elem.
Qed.

Lemma Cleaning_cover df_raw cleaned c :
  Cleaning cast_timestamp df_raw cleaned →
  c ∈ candidates cast_timestamp df_raw →
  ∃ c', c' ∈ cleaned ∧ dedup_key c' = dedup_key c.
Proof.
  intros (arrival & Hp & ->) Hc. apply dropDuplicates_cover. by rewrite Hp.
Qed.

Lemma Cleaning_NoDup df_raw cleaned :
  Cleaning cast_timestamp df_raw cleaned → NoDup (dedup_key <$> cleaned).
Proof. intros (arrival & Hp & ->). apply dropDuplicates_NoDup. Qed.

Lemma Cleaning_in_order df_raw :
  Cleaning cast_timestamp df_raw (df_cleaned cast_timestamp df_raw).
Proof. by exists (candidates cast_timestamp df_raw). Qed.

(** The four completeness columns and the positivity of a row can be read
    off its image under [withColumns]. *)
Lemma withColumns_complete r r' :
  withColumns cast_timestamp r = withColumns cast_timestamp r' →
  complete r' ∧ positive r' → complete r ∧ positive r.
Proof.
  unfold complete, positive, withColumns. intros Heq.
  injection Heq as -> -> _ -> _ -> _ _ _ _. tauto.
Qed.

(** C1 (amended). A row of the input appears in the cleaned table exactly
    when Invoice, StockCode, Quantity and Price are non-null, Quantity and
    Price are positive, and no other surviving row has its (Invoice,
    StockCode, InvoiceDate) key. Whether the invoice date parses plays no
    part: an unparseable date becomes a null InvoiceDate and the row
    stays. *)
Theorem cleaning_survival df_raw cleaned r :
  Cleaning cast_timestamp df_raw cleaned → r ∈ df_raw →
  withColumns cast_timestamp r ∈ cleaned ↔
  complete r ∧ positive r ∧
  ∀ c, c ∈ cleaned → c ≠ withColumns cast_timestamp r →
       dedup_key c ≠ dedup_key (withColumns cast_timestamp r).
Proof.
  intros Hclean Hr. split.
  - intros Hin.
    destruct (proj1 (candidates_elem _ _) (Cleaning_elem _ _ _ Hclean Hin))
      as (r' & Heq & _ & Hc).
    destruct (withColumns_complete _ _ Heq Hc) as [? ?].
    split; [done|]. split; [done|].
    intros c Hc' Hne Hk. apply Hne.
    eapply NoDup_key_inj; [by eapply Cleaning_NoDup|done..].
  - intros (Hc & Hp & Huniq).
    destruct (Cleaning_cover df_raw cleaned (withColumns cast_timestamp r) Hclean)
      as (c' & Hc' & Hk).
    { apply candidates_elem. by exists r. }
    destruct (decide (c' = withColumns cast_timestamp r)) as [<-|Hne];
      [done | by destruct (Huniq c' Hc' Hne)].
Qed.
(** C2. In the cleaned table two rows at different positions never have
    the same (Invoice, StockCode, InvoiceDate) key, and every key of a
    candidate row is the key of exactly one row of the cleaned table. *)
Theorem cleaning_unique_keys df_raw cleaned :
  Cleaning cast_timestamp df_raw cleaned →
  (∀ i j c c', cleaned !! i = Some c → cleaned !! j = Some c' → i ≠ j →
               dedup_key c ≠ dedup_key c') ∧
  (∀ c, c ∈ candidates cast_timestamp df_raw →
        length (group dedup_key (dedup_key c) cleaned) = 1%nat).
Proof.
  intros Hclean. pose proof (Cleaning_NoDup _ _ Hclean) as Hnd. split.
  - intros i j c c' Hi Hj Hne Hk. apply Hne.
    apply (proj1 (NoDup_alt _) Hnd i j (dedup_key c)).
    + by rewrite list_lookup_fmap, Hi.
    + by rewrite list_lookup_fmap, Hj, Hk.
  - intros c Hc. apply group_length_NoDup; [done|].
    destruct (Cleaning_cover _ _ _ Hclean Hc) as (c' & Hc' & <-).
    by apply list_elem_of_fmap_2.
Qed.

End CleaningFacts.

(** ** Step 6: the enriched table *)

Lemma enriched_columns_eq :
  enriched_columns = cleaned_columns ++ feature_columns.
Proof. reflexivity. Qed.

Lemma feature_columns_fresh c : c ∈ feature_columns → c ∉ cleaned_columns.
Proof.
  intros Hc Hc'. apply list_elem_of_In in Hc, Hc'.
  simpl in Hc, Hc'. intuition (subst; discriminate).
Qed.

(** C5. The enriched table has one row per cleaned row, in the same
    position and with the cleaned row's columns unchanged; its columns are
    the cleaned columns followed by six new ones. *)
Theorem enrichment_one_to_one cleaned :
  length (df_enriched cleaned) = length cleaned ∧
  base <$> df_enriched cleaned = cleaned ∧
  (∀ i e, df_enriched cleaned !! i = Some e → cleaned !! i = Some (base e)) ∧
  (∀ c, c ∈ cleaned_columns → c ∈ enriched_columns) ∧
  (∃ c, c ∈ enriched_columns ∧ c ∉ cleaned_columns).
Proof.
  unfold df_enriched. split; [by rewrite length_fmap|].
  assert (base <$> (add_features <$> cleaned) = cleaned) as Hbase.
  { rewrite <-list_fmap_compose. by rewrite <-(list_fmap_id cleaned) at 2. }
  split; [done|]. split; [|split].
  - intros i e Hi. rewrite <-Hbase at 1. by rewrite list_lookup_fmap, Hi.
  - intros c Hc. rewrite enriched_columns_eq. apply elem_of_app. by left.
  - exists "Year"%string. split.
    + rewrite enriched_columns_eq. apply elem_of_app. right. by left.
    + apply feature_columns_fresh. by left.
Qed.

(** C8 (amended). The Enrichment Stage never fails: on every table it
    returns the enriched table, in which a row without an invoice timestamp
    has null in all six derived columns and a row with one has a value in
    all six. *)
Theorem enrichment_never_fails cleaned :
  Enrichment cleaned = inr (df_enriched cleaned) ∧
  ∀ e, e ∈ df_enriched cleaned →
       match InvoiceDate (base e) with
       | None => lacks_timestamp e
       | Some _ => has_features e
       end.
Proof.
  split; [done|]. unfold df_enriched. intros e (r & -> & _)%list_elem_of_fmap.
  unfold lacks_timestamp, has_features. simpl.
  destruct (InvoiceDate r); simpl; repeat split; eauto.
Qed.

(** ** Aggregate functions *)

Lemma non_null_elem {A} (xs : list (option A)) v :
  v ∈ non_null xs ↔ Some v ∈ xs.
Proof.
  unfold non_null. rewrite list_elem_of_omap. split.
  - intros (x & ? & Hx). simpl in Hx. by subst.
  - intros ?. by exists (Some v).
Qed.

Lemma count_all_present {A B} (f : A → option B) l :
  (∀ r, r ∈ l → is_Some (f r)) → count (f <$> l) = length l.
Proof.
  unfold count, non_null. induction l as [|x l IH]; intros Hall; [done|].
  destruct (Hall x) as [v Hv]; [by left|].
  rewrite fmap_cons, Hv. simpl.
  f_equal. apply IH. intros r ?. apply Hall. by right.
Qed.

Lemma remove_dups_length_le `{EqDecision A} (l : list A) :
  (length (remove_dups l) ≤ length l)%nat.
Proof.
  induction l as [|x l IH]; simpl; [done|].
  case_decide; simpl; lia.
Qed.

Lemma countDistinct_le_count `{EqDecision A} (xs : list (option A)) :
  (countDistinct xs ≤ count xs)%nat.
Proof. apply remove_dups_length_le. Qed.

(** With a null among the values, [distinct().count()] is one more than
    [countDistinct]. *)
Lemma distinct_count_null `{EqDecision A} (xs : list (option A)) :
  None ∈ xs → distinct_count xs = S (countDistinct xs).
Proof.
  intros Hnone. unfold distinct_count, countDistinct.
  rewrite <-(length_fmap Some (remove_dups (non_null xs))).
  change (S (length ?l)) with (length (None :: l)).
  apply Permutation_length, NoDup_Permutation.
  - apply NoDup_remove_dups.
  - constructor.
    + by intros (? & ? & _)%list_elem_of_fmap.
    + apply (NoDup_fmap_2 Some), NoDup_remove_dups.
  - intros [v|].
    + rewrite elem_of_remove_dups, elem_of_cons, list_elem_of_fmap.
      split.
      * intros ?. right. exists v. split; [done|].
        by apply elem_of_remove_dups, non_null_elem.
      * intros [?|(v' & [= ->] & Hv)]; [done|].
        by apply elem_of_remove_dups, non_null_elem in Hv.
    + rewrite elem_of_remove_dups. split; [by left | done].
Qed.

Lemma sum_double_Permutation xs ys :
  xs ≡ₚ ys → sum_double xs = sum_double ys.
Proof.
  induction 1 as [|x xs ys _ IH|x y xs|xs ys zs _ IH1 _ IH2]; simpl.
  - done.
  - destruct x; by rewrite IH.
  - destruct x, y; simpl; try done. apply (f_equal Some); ring.
  - congruence.
Qed.

Lemma sum_double_app xs ys :
  sum_double (xs ++ ys) = sum_double (sum_double xs :: [sum_double ys]).
Proof.
  induction xs as [|[v|] xs IH]; simpl.
  - destruct (sum_double ys); simpl; [apply (f_equal Some); ring | done].
  - rewrite IH. simpl.
    destruct (sum_double xs), (sum_double ys); simpl; apply (f_equal Some); ring.
  - done.
Qed.

Lemma sum_double_concat xss :
  sum_double (concat xss) = sum_double (sum_double <$> xss).
Proof.
  induction xss as [|xs xss IH]; [done|]. csimpl.
  rewrite sum_double_app. simpl. rewrite IH.
  destruct (sum_double xs), (sum_double (sum_double <$> xss));
    simpl; try done; apply (f_equal Some); ring.
Qed.

Lemma max_ts_upper xs v :
  Some v ∈ xs → ∃ m, max_ts xs = Some m ∧ v ≤ m.
Proof.
  induction xs as [|[x|] xs IH]; simpl.
  - by intros ?%elem_of_nil.
  - intros [[= ->]|Hv]%elem_of_cons.
    + destruct (max_ts xs) as [m|]; eexists; (split; [done|lia]).
    + destruct (IH Hv) as (m & -> & ?). eexists; split; [done|lia].
  - intros [?|Hv]%elem_of_cons; [done | by apply IH].
Qed.

Lemma max_ts_elem xs m : max_ts xs = Some m → Some m ∈ xs.
Proof.
  revert m. induction xs as [|[x|] xs IH]; intros m; simpl.
  - done.
  - destruct (max_ts xs) as [m'|] eqn:Hm; intros [= <-]; [|by left].
    destruct (Z.max_spec x m') as [[_ ->]|[_ ->]]; [|by left].
    right. by apply IH.
  - intros ?. right. by apply IH.
Qed.

Lemma max_ts_Permutation xs ys : xs ≡ₚ ys → max_ts xs = max_ts ys.
Proof.
  induction 1 as [|x xs ys _ IH|x y xs|xs ys zs _ IH1 _ IH2]; simpl.
  - done.
  - destruct x; by rewrite IH.
  - destruct x, y, (max_ts xs); try done; f_equal; lia.
  - congruence.
Qed.

Lemma to_date_mono s e : s ≤ e → to_date s ≤ to_date e.
Proof. intros ?. unfold to_date. by apply Z.div_le_mono. Qed.

(** ** Grouping is a partition *)

Section GroupFacts.
Context {A K : Type} `{EqDecision K}.
Variable key : A → K.

Lemma group_filter_ne k k' l :
  k' ≠ k → group key k' (filter (λ r, key r ≠ k) l) = group key k' l.
Proof.
  intros Hne. unfold group. rewrite list_filter_filter.
  apply list_filter_iff. intros r. split; [tauto|].
  intros <-. by split.
Qed.

(** The groups of a table, taken over any duplicate-free list of keys
    that covers it, hold each row once. *)
Lemma group_partition {B} (f : A → B) ks l :
  NoDup ks → (∀ r, r ∈ l → key r ∈ ks) →
  concat ((λ k, f <$> group key k l) <$> ks) ≡ₚ f <$> l.
Proof.
  revert l. induction ks as [|k ks IH]; intros l Hnd Hall.
  - rewrite (elem_of_nil_inv l); [done|].
    intros r Hr. by apply Hall, elem_of_nil in Hr.
  - apply NoDup_cons in Hnd as [Hk Hnd]. csimpl.
    trans (f <$> (filter (λ r, key r = k) l ++ filter (λ r, key r ≠ k) l));
      [|by rewrite filter_app_complement].
    rewrite fmap_app. apply Permutation_app; [done|].
    assert ((λ k', f <$> group key k' (filter (λ r, key r ≠ k) l)) <$> ks =
            (λ k', f <$> group key k' l) <$> ks) as <-.
    { apply Forall_fmap_ext, Forall_forall.
      intros k' Hk'. rewrite group_filter_ne; [done|]. by intros ->. }
    apply IH; [done|].
    intros r [Hne Hr]%list_elem_of_filter.
    apply Hall, elem_of_cons in Hr as [?|?]; done.
Qed.

Lemma group_keys_NoDup l : NoDup (group_keys key l).
Proof. apply NoDup_remove_dups. Qed.

Lemma group_keys_cover l r : r ∈ l → key r ∈ group_keys key l.
Proof. intros ?. apply group_keys_elem. by exists r. Qed.

(** Summing the per-group sums gives the sum over the table. *)
Lemma groupBy_sum (f : A → option Qc) l :
  sum_double ((λ k, sum_double (f <$> group key k l)) <$> group_keys key l) =
  sum_double (f <$> l).
Proof.
  rewrite <-(sum_double_Permutation _ _
    (group_partition f (group_keys key l) l (group_keys_NoDup l)
                     (group_keys_cover l))).
  rewrite sum_double_concat. by rewrite <-list_fmap_compose.
Qed.
End GroupFacts.

(** ** Step 7 and step 9: the analytics tables and the summary *)


(** C6. Recency is measured from the one maximum timestamp of the whole
    cleaned table: a customer whose last purchase is that timestamp has
    recency 0, and no recency is negative. *)
Theorem recency_nonnegative cleaned c :
  c ∈ customer_rfm cleaned →
  Recency c = datediff (max_date cleaned) (LastPurchaseDate c) ∧
  (∀ t, max_date cleaned = Some t → LastPurchaseDate c = Some t →
        Recency c = Some 0) ∧
  (∀ d, Recency c = Some d → 0 ≤ d).
Proof.
  intros (k & _ & ->)%groupBy_agg_elem. simpl. split; [done|]. split.
  - intros t -> ->. simpl. f_equal. lia.
  - intros d. destruct (max_date cleaned) as [e|] eqn:He; [|done].
    destruct (max_ts (InvoiceDate <$> group CustomerID k cleaned))
      as [s|] eqn:Hs; [|done].
    simpl. intros [= <-].
    apply max_ts_elem, list_elem_of_fmap in Hs as (r & Hr & [_ Hin]%group_elem).
    destruct (max_ts_upper (InvoiceDate <$> cleaned) s) as (m & Hm & Hle).
    { apply list_elem_of_fmap. by exists r. }
    unfold max_date in He. rewrite He in Hm. injection Hm as <-.
    pose proof (to_date_mono s e Hle). lia.
Qed.

(** C7. TotalOrders of a country is the number of cleaned rows of that
    country; the number of distinct invoices of the country is at most
    that and can be smaller (see [total_orders_counts_rows_not_invoices]). *)
Theorem total_orders_row_count cast_timestamp df_raw cleaned s :
  Cleaning cast_timestamp df_raw cleaned → s ∈ country_sales cleaned →
  TotalOrders s = length (group Country (co_Country s) cleaned) ∧
  (countDistinct (Invoice <$> group Country (co_Country s) cleaned)
     ≤ TotalOrders s)%nat.
Proof.
  intros Hclean (k & _ & ->)%groupBy_agg_elem. simpl. split.
  - apply count_all_present. intros r [_ Hr]%group_elem.
    destruct (proj1 (candidates_elem _ _ _) (Cleaning_elem _ _ _ _ Hclean Hr))
      as (r0 & -> & _ & (Hinv & _) & _).
    done.
  - apply countDistinct_le_count.
Qed.

Lemma countDistinct_customers g :
  distinct_customers g (countDistinct (CustomerID <$> g)).
Proof.
  exists (remove_dups (non_null (CustomerID <$> g))).
  split; [apply NoDup_remove_dups|]. split; [|done].
  intros c. rewrite elem_of_remove_dups, non_null_elem, list_elem_of_fmap.
  split; intros (r & ? & ?); by exists r.
Qed.


(** ** Two runs on one input *)

Lemma fmap_perm {A B} (f : A → B) l l' : l ≡ₚ l' → f <$> l ≡ₚ f <$> l'.
Proof. intros ->. done. Qed.

Lemma count_Permutation {A} (xs ys : list (option A)) :
  xs ≡ₚ ys → count xs = count ys.
Proof. intros Hp. unfold count, non_null. by rewrite Hp. Qed.

Lemma remove_dups_Permutation `{EqDecision A} (l l' : list A) :
  l ≡ₚ l' → remove_dups l ≡ₚ remove_dups l'.
Proof.
  intros Hp. apply NoDup_Permutation; [apply NoDup_remove_dups..|].
  intros x. by rewrite !elem_of_remove_dups, Hp.
Qed.

Lemma countDistinct_Permutation `{EqDecision A} (xs ys : list (option A)) :
  xs ≡ₚ ys → countDistinct xs = countDistinct ys.
Proof.
  intros Hp. unfold countDistinct, non_null.
  apply Permutation_length, remove_dups_Permutation. by rewrite Hp.
Qed.

Lemma sum_long_Permutation xs ys : xs ≡ₚ ys → sum_long xs = sum_long ys.
Proof.
  induction 1 as [|x xs ys _ IH|x y xs|xs ys zs _ IH1 _ IH2]; simpl.
  - done.
  - destruct x; by rewrite IH.
  - destruct x, y; simpl; try done. f_equal. lia.
  - congruence.
Qed.

Lemma group_Permutation {A K} `{EqDecision K} (key : A → K) k l l' :
  l ≡ₚ l' → group key k l ≡ₚ group key k l'.
Proof. intros Hp. unfold group. by rewrite Hp. Qed.

Create HintDb agg_perm.
#[local] Hint Resolve fmap_perm count_Permutation countDistinct_Permutation
  sum_long_Permutation sum_double_Permutation max_ts_Permutation
  group_Permutation : agg_perm.

(** A grouped aggregate whose row function does not depend on row order
    gives the same rows, in some order, on two orderings of a table. *)
Lemma groupBy_agg_Permutation {A K B} `{EqDecision K} (key : A → K)
    (agg agg' : K → list A → B) l l' :
  l ≡ₚ l' → (∀ k, agg k (group key k l) = agg' k (group key k l')) →
  groupBy_agg key agg l ≡ₚ groupBy_agg key agg' l'.
Proof.
  intros Hp Hagg. unfold groupBy_agg, group_keys.
  rewrite <-(remove_dups_Permutation _ _ (fmap_perm key _ _ Hp)).
  apply eq_subrelation; [apply _|].
  apply Forall_fmap_ext, Forall_forall. intros k _. apply Hagg.
Qed.

Lemma analytics_Permutation l l' :
  l ≡ₚ l' → same_tables (analytics l) (analytics l').
Proof.
  intros Hp. unfold same_tables, analytics. simpl.
  split; [done|]. repeat split.
  - apply groupBy_agg_Permutation; [done|]. intros k.
    unfold max_date. f_equal; auto 6 with agg_perm.
    f_equal; auto 6 with agg_perm.
  - apply groupBy_agg_Permutation; [done|]. intros k.
    f_equal; auto 6 with agg_perm.
  - apply groupBy_agg_Permutation; [done|]. intros k.
    f_equal; auto 6 with agg_perm.
  - assert (df_enriched l ≡ₚ df_enriched l') as He by by apply fmap_perm.
    apply groupBy_agg_Permutation; [done|]. intros k.
    f_equal; auto 6 with agg_perm.
Qed.


(** * Further properties of the pipeline *)

(** ** Step 5 *)

Lemma half_up_nonneg x : (0 <= x)%Q → 0 ≤ half_up x.
Proof.
  intros Hx. unfold half_up.
  rewrite (proj2 (Qle_bool_iff 0 x) Hx).
  change 0 with (Qfloor 0). apply Qfloor_resp_le. lra.
Qed.

Lemma round2_nonneg (x : Qc) : (0 ≤ x)%Qc → (0 ≤ round2 x)%Qc.
Proof.
  intros Hx. unfold round2, Qcle.
  change (this (Q2Qc ?q)) with (Qred q). rewrite !Qred_correct.
  assert (0 ≤ half_up (this x * (100 # 1))) as Hn.
  { apply half_up_nonneg. unfold Qcle in Hx. change (0 <= this x)%Q in Hx.
    lra. }
  unfold Qle. simpl. lia.
Qed.

Lemma times_positive q p x :
  pos_long q → pos_double p → times q p = Some x → (0 < x)%Qc.
Proof.
  destruct q as [z|], p as [y|]; simpl; try done.
  intros Hz Hy [= <-]. unfold Qclt in *.
  change (0 < Qred (inject_Z z * this y))%Q. rewrite Qred_correct.
  apply Qmult_lt_0_compat; [|exact Hy].
  unfold Qlt. simpl. lia.
Qed.

(** The three row filters of step 5 are one filter. *)
Lemma filters_keeps l :
  filter_Price (filter_Quantity (dropna l)) = filter keeps l.
Proof.
  unfold filter_Price, filter_Quantity, dropna.
  rewrite !list_filter_filter. apply list_filter_iff. intros r.
  unfold keeps, complete. split.
  - tauto.
  - intros (? & ? & Hq & Hp). repeat split; try done.
    + by destruct (raw_Quantity r).
    + by destruct (raw_Price r).
Qed.

Lemma candidates_keeps cast_timestamp df :
  candidates cast_timestamp df = withColumns cast_timestamp <$> filter keeps df.
Proof. unfold candidates. by rewrite filters_keeps. Qed.


(** X2. A row whose quantity or price is not positive (a return, a
    cancellation, a free item) leaves no trace: the candidate rows, and so
    the outcomes of step 5, are those of the input without it. *)
Theorem nonpositive_rows_invisible cast_timestamp l1 r l2 cleaned :
  ¬ pos_long (raw_Quantity r) ∨ ¬ pos_double (raw_Price r) →
  candidates cast_timestamp (l1 ++ r :: l2) = candidates cast_timestamp (l1 ++ l2) ∧
  (Cleaning cast_timestamp (l1 ++ r :: l2) cleaned ↔
   Cleaning cast_timestamp (l1 ++ l2) cleaned).
Proof.
  intros Hr.
  assert (candidates cast_timestamp (l1 ++ r :: l2) =
          candidates cast_timestamp (l1 ++ l2)) as Heq.
  { rewrite !candidates_keeps, !filter_app, filter_cons_False; [done|].
    unfold keeps. tauto. }
  split; [done|]. unfold Cleaning. by rewrite Heq.
Qed.


Lemma dedup_from_sublist {A K} `{EqDecision K} (key : A → K) seen l :
  dedup_from key seen l `sublist_of` l.
Proof.
  revert seen. induction l as [|x l IH]; intros seen; simpl; [done|].
  case_decide; [by apply sublist_cons | by apply sublist_skip].
Qed.

Lemma dropDuplicates_length {A K} `{EqDecision K} (key : A → K) l :
  length (dropDuplicates key l) = length (remove_dups (key <$> l)).
Proof.
  rewrite <-(length_fmap key (dropDuplicates key l)).
  apply Permutation_length, NoDup_Permutation.
  - apply dropDuplicates_NoDup.
  - apply NoDup_remove_dups.
  - intros k. by rewrite dropDuplicates_keys, elem_of_remove_dups.
Qed.

Lemma Cleaning_submseteq cast_timestamp df cleaned :
  Cleaning cast_timestamp df cleaned →
  cleaned ⊆+ candidates cast_timestamp df.
Proof.
  intros (arrival & Hp & ->). rewrite <-Hp.
  apply sublist_submseteq, dedup_from_sublist.
Qed.

Lemma Cleaning_length cast_timestamp df cleaned :
  Cleaning cast_timestamp df cleaned →
  length cleaned =
    length (remove_dups (dedup_key <$> candidates cast_timestamp df)).
Proof.
  intros (arrival & Hp & ->). rewrite dropDuplicates_length.
  apply Permutation_length, remove_dups_Permutation. by rewrite Hp.
Qed.

(** X4. The cleaned table is a part of the candidate rows, it has one row
    per distinct key of the candidates, and it is never longer than the
    input. *)
Theorem cleaning_row_count cast_timestamp df cleaned :
  Cleaning cast_timestamp df cleaned →
  cleaned ⊆+ candidates cast_timestamp df ∧
  length cleaned =
    length (remove_dups (dedup_key <$> candidates cast_timestamp df)) ∧
  (length cleaned ≤ length df)%nat.
Proof.
  intros Hclean. pose proof (Cleaning_submseteq _ _ _ Hclean) as Hsub.
  split; [done|]. split.
  - by apply Cleaning_length.
  - apply submseteq_length in Hsub. etrans; [exact Hsub|].
    unfold candidates, filter_Price, filter_Quantity, dropna.
    rewrite length_fmap.
    etrans; [apply length_filter|]. etrans; [apply length_filter|].
    apply length_filter.
Qed.

(** X5. Step 5 drops no candidate row exactly when no two candidate rows
    share a key. *)
Theorem cleaning_keeps_all_iff cast_timestamp df cleaned :
  Cleaning cast_timestamp df cleaned →
  cleaned ≡ₚ candidates cast_timestamp df ↔
  NoDup (dedup_key <$> candidates cast_timestamp df).
Proof.
  intros Hclean. split.
  - intros Hp. rewrite <-Hp. by eapply Cleaning_NoDup.
  - intros Hnd. apply submseteq_length_Permutation.
    + by apply Cleaning_submseteq.
    + rewrite (Cleaning_length _ _ _ Hclean).
      rewrite <-(length_fmap dedup_key (candidates cast_timestamp df)).
      apply Nat.eq_le_incl, Permutation_length, NoDup_Permutation;
        [done | apply NoDup_remove_dups |].
      intros k. by rewrite elem_of_remove_dups.
Qed.

(** ** Steps 7 and 9 *)

Lemma length_concat_sum {A} (xss : list (list A)) :
  length (concat xss) = sum_list (length <$> xss).
Proof.
  induction xss as [|xs xss IH]; [done|].
  csimpl. by rewrite length_app, IH.
Qed.

(** The sizes of the groups of a table add up to the size of the table. *)
Lemma groupBy_count {A K B} `{EqDecision K} (key : A → K)
    (f : A → option B) l :
  (∀ r, r ∈ l → is_Some (f r)) →
  sum_list ((λ k, count (f <$> group key k l)) <$> group_keys key l) =
  length l.
Proof.
  intros Hall.
  rewrite <-(length_fmap id l).
  rewrite <-(Permutation_length
    (group_partition key id (group_keys key l) l (group_keys_NoDup key l)
                     (group_keys_cover key l))).
  rewrite length_concat_sum, <-list_fmap_compose. f_equal.
  apply Forall_fmap_ext, Forall_forall. intros k _. simpl.
  rewrite length_fmap. apply count_all_present.
  intros r [_ Hr]%group_elem. by apply Hall.
Qed.

Lemma Cleaning_Invoice cast_timestamp df cleaned c :
  Cleaning cast_timestamp df cleaned → c ∈ cleaned → is_Some (Invoice c).
Proof.
  intros Hclean Hc.
  destruct (proj1 (candidates_elem _ _ _) (Cleaning_elem _ _ _ _ Hclean Hc))
    as (r & -> & _ & (Hi & _) & _).
  done.
Qed.

(** X6. Every cleaned row is counted once in each table: Frequency over the
    customers, TotalOrders over the countries and MonthlyOrders over the
    months each add up to the number of cleaned rows. *)
Theorem order_counts_add_up cast_timestamp df cleaned :
  Cleaning cast_timestamp df cleaned →
  sum_list (Frequency <$> customer_rfm cleaned) = length cleaned ∧
  sum_list (TotalOrders <$> country_sales cleaned) = length cleaned ∧
  sum_list (MonthlyOrders <$> monthly_trends (df_enriched cleaned)) =
    length cleaned.
Proof.
  intros Hclean.
  assert (∀ c, c ∈ cleaned → is_Some (Invoice c)) as Hinv
    by (intros c; by eapply Cleaning_Invoice).
  unfold customer_rfm, country_sales, monthly_trends, groupBy_agg.
  rewrite <-!list_fmap_compose. split; [|split].
  - by apply (groupBy_count CustomerID Invoice).
  - by apply (groupBy_count Country Invoice).
  - rewrite <-(length_fmap add_features cleaned).
    apply (groupBy_count _ (Invoice ∘ base)).
    intros e (r & -> & Hr)%list_elem_of_fmap. by apply Hinv.
Qed.


Lemma sum_long_positive xs :
  xs ≠ [] → (∀ x, x ∈ xs → pos_long x) → ∃ n, sum_long xs = Some n ∧ 0 < n.
Proof.
  induction xs as [|[v|] xs IH]; intros Hne Hall; [done| |].
  - simpl. eexists. split; [done|].
    assert (0 < v) by (apply (Hall (Some v)); by left).
    destruct xs as [|x xs]; [simpl; lia|].
    destruct IH as (n & -> & ?); [done| |simpl; lia].
    intros y ?. apply Hall. by right.
  - destruct (Hall None). by left.
Qed.

Lemma sum_long_app xs ys :
  sum_long (xs ++ ys) = sum_long (sum_long xs :: [sum_long ys]).
Proof.
  induction xs as [|[v|] xs IH]; simpl.
  - destruct (sum_long ys); simpl; [f_equal; lia | done].
  - rewrite IH. simpl.
    destruct (sum_long xs), (sum_long ys); simpl; f_equal; lia.
  - done.
Qed.

Lemma sum_long_concat xss :
  sum_long (concat xss) = sum_long (sum_long <$> xss).
Proof.
  induction xss as [|xs xss IH]; [done|]. csimpl.
  rewrite sum_long_app. simpl. rewrite IH.
  destruct (sum_long xs), (sum_long (sum_long <$> xss));
    simpl; try done; f_equal; lia.
Qed.

Lemma Cleaning_Quantity cast_timestamp df cleaned c :
  Cleaning cast_timestamp df cleaned → c ∈ cleaned → pos_long (Quantity c).
Proof.
  intros Hclean Hc.
  destruct (proj1 (candidates_elem _ _ _) (Cleaning_elem _ _ _ _ Hclean Hc))
    as (r & -> & _ & _ & Hq & _).
  done.
Qed.


Lemma groupBy_agg_keys {A K B} `{EqDecision K} (key : A → K)
    (agg : K → list A → B) (proj : B → K) l :
  (∀ k g, proj (agg k g) = k) →
  proj <$> groupBy_agg key agg l = group_keys key l.
Proof.
  intros Hproj. unfold groupBy_agg. rewrite <-list_fmap_compose.
  rewrite <-(list_fmap_id (group_keys key l)) at 2.
  apply Forall_fmap_ext, Forall_forall. intros k _. apply Hproj.
Qed.

Lemma remove_dups_fmap_length `{EqDecision A, EqDecision B} (f : A → B) l :
  (length (remove_dups (f <$> l)) ≤ length (remove_dups l))%nat.
Proof.
  rewrite <-(length_fmap f (remove_dups l)).
  apply submseteq_length, NoDup_submseteq; [apply NoDup_remove_dups|].
  intros y (x & -> & Hx)%elem_of_remove_dups%list_elem_of_fmap.
  apply list_elem_of_fmap_2. by apply elem_of_remove_dups.
Qed.

(** X9. Customer_rfm has exactly one row per customer value, the anonymous
    customer included, so it has as many rows as the summary counts unique
    customers; every cleaned row belongs to one of its rows. *)
Theorem customer_rfm_one_row_per_customer cleaned :
  NoDup (cs_CustomerID <$> customer_rfm cleaned) ∧
  length (customer_rfm cleaned) = unique_customers cleaned ∧
  ∀ r, r ∈ cleaned →
       ∃ c, c ∈ customer_rfm cleaned ∧ cs_CustomerID c = CustomerID r.
Proof.
  assert (cs_CustomerID <$> customer_rfm cleaned =
          group_keys CustomerID cleaned) as Hkeys
    by by apply groupBy_agg_keys.
  split; [rewrite Hkeys; apply NoDup_remove_dups|]. split.
  - by rewrite <-(length_fmap cs_CustomerID), Hkeys.
  - intros r Hr.
    assert (CustomerID r ∈ cs_CustomerID <$> customer_rfm cleaned) as Hin
      by (rewrite Hkeys; by apply group_keys_cover).
    apply list_elem_of_fmap in Hin as (c & ? & ?). by exists c.
Qed.

(** X10. Product_analysis has one row per (StockCode, Description) pair; a
    stock code with two descriptions has two rows, so the table has at
    least as many rows as the summary counts unique products, and at most
    as many as the cleaned table. *)
Theorem product_analysis_rows cleaned :
  NoDup ((λ p, (ps_StockCode p, ps_Description p)) <$> product_analysis cleaned) ∧
  (unique_products cleaned ≤ length (product_analysis cleaned))%nat ∧
  (length (product_analysis cleaned) ≤ length cleaned)%nat.
Proof.
  set (key := λ r : Row, (StockCode r, Description r)).
  assert ((λ p, (ps_StockCode p, ps_Description p)) <$> product_analysis cleaned =
          group_keys key cleaned) as Hkeys.
  { apply (groupBy_agg_keys key). by intros [k1 k2] g. }
  assert (length (product_analysis cleaned) = length (group_keys key cleaned))
    as Hlen by by rewrite <-Hkeys, length_fmap.
  split; [rewrite Hkeys; apply NoDup_remove_dups|]. rewrite Hlen. split.
  - unfold unique_products, distinct_count, group_keys.
    replace (StockCode <$> cleaned) with (fst <$> (key <$> cleaned))
      by by rewrite <-list_fmap_compose.
    apply remove_dups_fmap_length.
  - unfold group_keys. etrans; [apply remove_dups_length_le|].
    by rewrite length_fmap.
Qed.

Lemma sum_double_nonneg xs :
  xs ≠ [] → (∀ x, x ∈ xs → ∃ a, x = Some a ∧ (0 ≤ a)%Qc) →
  ∃ m, sum_double xs = Some m ∧ (0 ≤ m)%Qc.
Proof.
  induction xs as [|x xs IH]; intros Hne Hall; [done|].
  destruct (Hall x) as (a & -> & Ha); [by left|]. simpl.
  eexists. split; [done|].
  destruct xs as [|y xs].
  - simpl. by rewrite Qcplus_0_r.
  - destruct IH as (m & -> & Hm); [done| |].
    + intros z ?. apply Hall. by right.
    + simpl. rewrite <-(Qcplus_0_r 0). by apply Qcplus_le_compat.
Qed.

Lemma group_nonempty {A K} `{EqDecision K} (key : A → K) l k :
  k ∈ group_keys key l → group key k l ≠ [].
Proof.
  intros (r & Hr & Hk)%group_keys_elem Hnil.
  assert (r ∈ group key k l) as Hin by by apply group_elem.
  rewrite Hnil in Hin. by apply elem_of_nil in Hin.
Qed.

Lemma Cleaning_TotalAmount cast_timestamp df cleaned c :
  Cleaning cast_timestamp df cleaned → c ∈ cleaned →
  ∃ a, TotalAmount c = Some a ∧ (0 ≤ a)%Qc.
Proof.
  intros Hclean Hc.
  destruct (proj1 (candidates_elem _ _ _) (Cleaning_elem _ _ _ _ Hclean Hc))
    as (r & -> & _ & (Hi & Hs & [q Hq] & [p Hp]) & Hpq & Hpp).
  simpl.
  pose proof (times_positive _ _ (Qc_of_Z q * p)%Qc Hpq Hpp) as Hpos.
  rewrite Hq, Hp in *. simpl. eexists. split; [done|].
  apply round2_nonneg, Qclt_le_weak. by apply Hpos.
Qed.



(** X13. The last purchase of a customer is the invoice date of one of the
    customer's rows, no row of the customer is later, and it is not later
    than the maximum date of the table. *)
Theorem last_purchase_is_latest cleaned c t :
  c ∈ customer_rfm cleaned → LastPurchaseDate c = Some t →
  (∃ r, r ∈ cleaned ∧ CustomerID r = cs_CustomerID c ∧ InvoiceDate r = Some t) ∧
  (∀ r t', r ∈ cleaned → CustomerID r = cs_CustomerID c →
           InvoiceDate r = Some t' → t' ≤ t) ∧
  (∃ e, max_date cleaned = Some e ∧ t ≤ e).
Proof.
  intros (k & _ & ->)%groupBy_agg_elem. simpl. intros Ht.
  pose proof (max_ts_elem _ _ Ht) as Hin.
  apply list_elem_of_fmap in Hin as (r & Hrt & [Hk Hr]%group_elem).
  split; [by exists r|]. split.
  - intros r' t' Hr' Hk' Ht'.
    destruct (max_ts_upper (InvoiceDate <$> group CustomerID k cleaned) t')
      as (m & Hm & ?).
    { apply list_elem_of_fmap. exists r'. split; [done|]. by apply group_elem. }
    rewrite Ht in Hm. by injection Hm as ->.
  - apply max_ts_upper, list_elem_of_fmap. by exists r.
Qed.

(** X14. Recency falls as the last purchase gets later: of two customers
    with a last purchase, the one who bought later has the smaller or
    equal recency, and both have one. *)
Theorem recency_antitone cleaned c1 c2 t1 t2 :
  c1 ∈ customer_rfm cleaned → c2 ∈ customer_rfm cleaned →
  LastPurchaseDate c1 = Some t1 → LastPurchaseDate c2 = Some t2 → t1 ≤ t2 →
  ∃ d1 d2, Recency c1 = Some d1 ∧ Recency c2 = Some d2 ∧ d2 ≤ d1.
Proof.
  intros (k1 & _ & ->)%groupBy_agg_elem (k2 & _ & ->)%groupBy_agg_elem.
  simpl. intros Ht1 Ht2 Hle.
  destruct (max_date cleaned) as [e|] eqn:He.
  - rewrite Ht1, Ht2. simpl. eexists _, _. split; [done|]. split; [done|].
    pose proof (to_date_mono _ _ Hle). lia.
  - apply max_ts_elem, list_elem_of_fmap in Ht1 as (r & Hr & [_ Hin]%group_elem).
    destruct (max_ts_upper (InvoiceDate <$> cleaned) t1) as (m & Hm & _).
    { apply list_elem_of_fmap. by exists r. }
    unfold max_date in He. congruence.
Qed.

Lemma count_le_length {A} (xs : list (option A)) :
  (count xs ≤ length xs)%nat.
Proof.
  unfold count, non_null. induction xs as [|[v|] xs IH]; csimpl; lia.
Qed.

Lemma countDistinct_le_distinct `{EqDecision A} (xs ys : list (option A)) :
  (∀ x, x ∈ xs → x ∈ ys) → (countDistinct xs ≤ distinct_count ys)%nat.
Proof.
  intros Hincl. unfold countDistinct, distinct_count.
  rewrite <-(length_fmap Some (remove_dups (non_null xs))).
  apply submseteq_length, NoDup_submseteq.
  - apply (NoDup_fmap_2 Some), NoDup_remove_dups.
  - intros y (v & -> & Hv)%list_elem_of_fmap.
    rewrite elem_of_remove_dups in Hv.
    apply elem_of_remove_dups, Hincl. by apply non_null_elem.
Qed.

(** X15. The unique customers of a country are at most its orders and at
    most the unique customers of the summary. *)
Theorem unique_customers_bounds cast_timestamp df cleaned s :
  Cleaning cast_timestamp df cleaned → s ∈ country_sales cleaned →
  (UniqueCustomers s ≤ TotalOrders s)%nat ∧
  (UniqueCustomers s ≤ unique_customers cleaned)%nat.
Proof.
  intros Hclean (k & _ & ->)%groupBy_agg_elem. simpl. split.
  - rewrite (count_all_present Invoice).
    + etrans; [apply countDistinct_le_count|].
      etrans; [apply count_le_length|]. by rewrite length_fmap.
    + intros r [_ Hr]%group_elem. by eapply Cleaning_Invoice.
  - apply countDistinct_le_distinct.
    intros x (r & -> & [_ Hr]%group_elem)%list_elem_of_fmap.
    by apply list_elem_of_fmap_2.
Qed.

Lemma distinct_count_present `{EqDecision A} (xs : list (option A)) :
  (∀ x, x ∈ xs → is_Some x) → distinct_count xs = countDistinct xs.
Proof.
  intros Hall. unfold distinct_count, countDistinct.
  rewrite <-(length_fmap Some (remove_dups (non_null xs))).
  apply Permutation_length, NoDup_Permutation.
  - apply NoDup_remove_dups.
  - apply (NoDup_fmap_2 Some), NoDup_remove_dups.
  - intros x. rewrite elem_of_remove_dups, list_elem_of_fmap. split.
    + intros Hx. destruct (Hall x Hx) as [v ->]. exists v. split; [done|].
      by apply elem_of_remove_dups, non_null_elem.
    + intros (v & -> & Hv). by apply elem_of_remove_dups, non_null_elem in Hv.
Qed.

(** X16. No invoice and no stock code of the cleaned table is null, so the
    order and product counts of the summary count real values only (unlike
    the customer count), and neither exceeds the number of cleaned rows. *)
Theorem summary_counts cast_timestamp df cleaned :
  Cleaning cast_timestamp df cleaned →
  total_orders cleaned = countDistinct (Invoice <$> cleaned) ∧
  unique_products cleaned = countDistinct (StockCode <$> cleaned) ∧
  (total_orders cleaned ≤ length cleaned)%nat ∧
  (unique_products cleaned ≤ length cleaned)%nat ∧
  (unique_customers cleaned ≤ length cleaned)%nat.
Proof.
  intros Hclean.
  assert (∀ {A} `{EqDecision A} (f : Row → A),
            (distinct_count (f <$> cleaned) ≤ length cleaned)%nat) as Hle.
  { intros A ? f. unfold distinct_count.
    etrans; [apply remove_dups_length_le|]. by rewrite length_fmap. }
  repeat split; try apply Hle.
  - apply distinct_count_present.
    intros x (c & -> & Hc)%list_elem_of_fmap. by eapply Cleaning_Invoice.
  - apply distinct_count_present.
    intros x (c & -> & Hc)%list_elem_of_fmap.
    destruct (proj1 (candidates_elem _ _ _) (Cleaning_elem _ _ _ _ Hclean Hc))
      as (r & -> & _ & (_ & Hs & _) & _).
    done.
Qed.

(** ** Step 6 *)

Lemma civil_month_range days : 1 ≤ (civil days).1.2 ≤ 12.
Proof.
  unfold civil. cbv zeta. simpl.
  set (z := days + 719468).
  set (doe := z - z / 146097 * 146097).
  assert (0 ≤ doe < 146097) as Hdoe.
  { unfold doe. pose proof (Z.mod_pos_bound z 146097 eq_refl) as Hmod.
    rewrite Z.mod_eq in Hmod by lia. lia. }
  clearbody doe. clear z.
  set (yoe := (doe - doe / 1460 + doe / 36524 - doe / 146096) / 365).
  set (doy := doe - (365 * yoe + yoe / 4 - yoe / 100)).
  assert (0 ≤ doy ≤ 365) as Hdoy.
  { unfold doy, yoe. Z.to_euclidean_division_equations. lia. }
  clearbody doy. clear yoe.
  set (mp := (5 * doy + 2) / 153).
  assert (0 ≤ mp ≤ 11) as Hmp.
  { unfold mp. Z.to_euclidean_division_equations. lia. }
  clearbody mp.
  destruct (mp <? 10) eqn:E; [apply Z.ltb_lt in E | apply Z.ltb_ge in E]; lia.
Qed.

Lemma name_lookup (names : list string) n :
  0 ≤ n < Z.of_nat (length names) →
  default ""%string (names !! Z.to_nat n) ∈ names.
Proof.
  intros Hn.
  destruct (lookup_lt_is_Some_2 names (Z.to_nat n)) as [s Hs]; [lia|].
  rewrite Hs. simpl. by eapply list_elem_of_lookup_2.
Qed.

(** X17. For a row with an invoice timestamp the derived columns are in
    range: Month 1 to 12, Quarter 1 to 4 and the quarter of that month,
    Hour 0 to 23, DayName a day of the week and MonthName the name of
    that month. *)
Theorem features_in_range cleaned e t :
  e ∈ df_enriched cleaned → InvoiceDate (base e) = Some t →
  ∃ m q h d mn,
    Month e = Some m ∧ 1 ≤ m ≤ 12 ∧
    Quarter e = Some q ∧ 1 ≤ q ≤ 4 ∧ 3 * q - 2 ≤ m ≤ 3 * q ∧
    Hour e = Some h ∧ 0 ≤ h ≤ 23 ∧
    DayName e = Some d ∧ d ∈ day_names ∧
    MonthName e = Some mn ∧ month_names !! Z.to_nat (m - 1) = Some mn.
Proof.
  unfold df_enriched. intros (r & -> & _)%list_elem_of_fmap.
  cbn [base add_features]. intros Ht.
  cbn [Month Quarter Hour DayName MonthName add_features]. rewrite Ht.
  unfold quarter, hour, date_format_EEEE, date_format_MMMM, month.
  cbn [fmap option_fmap option_map].
  pose proof (civil_month_range (to_date t)) as Hm.
  pose proof (Z.mod_pos_bound (to_date t) 7 eq_refl) as Hday.
  pose proof (Z.mod_pos_bound t MICROS_PER_DAY eq_refl) as Hmod.
  set (m := (civil (to_date t)).1.2) in *. clearbody m.
  set (d := to_date t mod 7) in *. clearbody d.
  set (s := t mod MICROS_PER_DAY) in *. clearbody s.
  destruct (lookup_lt_is_Some_2 month_names (Z.to_nat (m - 1))) as [mn Hmn].
  { change (length month_names) with 12%nat. lia. }
  eexists m, _, _, _, mn. rewrite Hmn.
  split; [done|]. split; [done|]. split; [done|].
  split; [Z.to_euclidean_division_equations; lia|].
  split; [Z.to_euclidean_division_equations; lia|].
  split; [done|]. split.
  { unfold MICROS_PER_DAY, MICROS_PER_HOUR in *.
    Z.to_euclidean_division_equations. lia. }
  split; [done|]. split; [|done].
  apply name_lookup. change (length day_names) with 7%nat. lia.
Qed.

(** ** Steps 3 and 4 *)

(** The combined table holds the rows of the first sheet and then those
    of the second, each with the columns of its sheet row and the label of
    its sheet, so every row carries one of the two labels. *)
Lemma df_combined_rows df_2009 df_2010 :
  length (df_combined df_2009 df_2010) =
    (length df_2009 + length df_2010)%nat ∧
  (∀ i r, df_2009 !! i = Some r →
          df_combined df_2009 df_2010 !! i =
            Some (assign_fiscal_year "2009-2010" r)) ∧
  (∀ i r, df_2010 !! i = Some r →
          df_combined df_2009 df_2010 !! (length df_2009 + i)%nat =
            Some (assign_fiscal_year "2010-2011" r)) ∧
  (∀ r, r ∈ df_combined df_2009 df_2010 → raw_fiscal_year r ∈ fiscal_years).
Proof.
  unfold df_combined. split; [|split; [|split]].
  - by rewrite length_app, !length_fmap.
  - intros i r Hi. rewrite lookup_app_l.
    + by rewrite list_lookup_fmap, Hi.
    + rewrite length_fmap. by eapply lookup_lt_Some.
  - intros i r Hi.
    rewrite <-(length_fmap (assign_fiscal_year "2009-2010") df_2009).
    by rewrite lookup_app_r, Nat.add_sub', list_lookup_fmap, Hi by lia.
  - intros r [Hr|Hr]%elem_of_app;
      apply list_elem_of_fmap in Hr as (s & -> & _); simpl.
    + by left.
    + right. by left.
Qed.

Lemma cleaned_fiscal_year cast_timestamp df_2009 df_2010 cleaned c :
  Cleaning cast_timestamp (df_raw df_2009 df_2010) cleaned → c ∈ cleaned →
  fiscal_year c ∈ fiscal_years.
Proof.
  intros Hclean Hc.
  destruct (proj1 (candidates_elem _ _ _) (Cleaning_elem _ _ _ _ Hclean Hc))
    as (r & -> & Hr & _).
  simpl. unfold df_raw, df_combined in Hr.
  apply elem_of_app in Hr as [Hr|Hr];
    apply list_elem_of_fmap in Hr as (s & -> & _); simpl.
  - by left.
  - right. by left.
Qed.

(** X18. The label given to a sheet in step 3 is the only source of
    fiscal_year: every cleaned row and every row of monthly_trends carries
    one of the two labels, and the write of retail_cleaned makes at most
    two partitions. *)
Theorem fiscal_year_labels cast_timestamp df_2009 df_2010 cleaned :
  Cleaning cast_timestamp (df_raw df_2009 df_2010) cleaned →
  (∀ c, c ∈ cleaned → fiscal_year c ∈ fiscal_years) ∧
  (∀ m, m ∈ monthly_trends (df_enriched cleaned) →
        mt_fiscal_year m ∈ fiscal_years) ∧
  (length (retail_cleaned cleaned) ≤ 2)%nat.
Proof.
  intros Hclean.
  assert (∀ c, c ∈ cleaned → fiscal_year c ∈ fiscal_years) as Hfy
    by (intros c; by eapply cleaned_fiscal_year).
  split; [done|]. split.
  - intros m (k & (e & He & <-)%group_keys_elem & ->)%groupBy_agg_elem. simpl.
    apply list_elem_of_fmap in He as (c & -> & Hc). simpl. by apply Hfy.
  - unfold retail_cleaned, partitionBy, groupBy_agg. rewrite length_fmap.
    change 2%nat with (length fiscal_years).
    apply submseteq_length, NoDup_submseteq; [apply group_keys_NoDup|].
    intros k (c & Hc & <-)%group_keys_elem. by apply Hfy.
Qed.

(** ** Step 8 *)

(** X19. A partitioned write puts every row of the table in exactly one
    partition, the one of its own partition values; no partition is empty
    and no two partitions have the same values. *)
Theorem partitionBy_cover {A K} `{EqDecision K} (key : A → K) l :
  NoDup (fst <$> partitionBy key l) ∧
  (∀ k g, (k, g) ∈ partitionBy key l →
          g ≠ [] ∧ ∀ r, r ∈ g ↔ r ∈ l ∧ key r = k) ∧
  concat (snd <$> partitionBy key l) ≡ₚ l.
Proof.
  unfold partitionBy. split; [|split].
  - rewrite (groupBy_agg_keys key (λ k g, (k, g)) fst); [|done].
    apply group_keys_NoDup.
  - intros k g (k' & Hk' & [= -> ->])%groupBy_agg_elem. split.
    + by apply group_nonempty.
    + intros r. rewrite group_elem. tauto.
  - unfold groupBy_agg. rewrite <-list_fmap_compose.
    rewrite <-(list_fmap_id l) at 2.
    rewrite <-(group_partition key id (group_keys key l) l
                 (group_keys_NoDup key l) (group_keys_cover key l)).
    apply eq_subrelation; [apply _|]. f_equal.
    apply Forall_fmap_ext, Forall_forall. intros k _. simpl.
    by rewrite list_fmap_id.
Qed.

(** * The properties on sample data *)

(** Membership in a table that evaluates to a literal list. *)
Ltac in_table := apply list_elem_of_In; vm_compute; auto.

(** C1 as stated fails: a complete, positive row whose invoice date is null
    is in the cleaned table although its date is not a timestamp. *)
Lemma cleaning_keeps_unparsed_date :
  Cleaning cast_none [row_no_date] (df_cleaned cast_none [row_no_date]) ∧
  row_no_date ∈ [row_no_date] ∧
  ¬ (withColumns cast_none row_no_date ∈ df_cleaned cast_none [row_no_date] ↔
     complete row_no_date ∧ positive row_no_date ∧
     is_Some (to_timestamp cast_none (raw_InvoiceDate row_no_date)) ∧
     ∀ c, c ∈ df_cleaned cast_none [row_no_date] →
          c ≠ withColumns cast_none row_no_date →
          dedup_key c ≠ dedup_key (withColumns cast_none row_no_date)).
Proof.
  split; [apply Cleaning_in_order|]. split; [by left|].
  intros [Hkeep _].
  destruct Hkeep as (_ & _ & [t Ht] & _); [in_table | discriminate Ht].
Qed.

(** [cleaning_survival] on two rows with one key. *)
Lemma cleaning_survival_witness :
  Cleaning cast_none [row_a1_q1; row_a1_q2]
           (df_cleaned cast_none [row_a1_q1; row_a1_q2]) ∧
  row_a1_q1 ∈ [row_a1_q1; row_a1_q2] ∧
  (withColumns cast_none row_a1_q1 ∈ df_cleaned cast_none [row_a1_q1; row_a1_q2] ↔
   complete row_a1_q1 ∧ positive row_a1_q1 ∧
   ∀ c, c ∈ df_cleaned cast_none [row_a1_q1; row_a1_q2] →
        c ≠ withColumns cast_none row_a1_q1 →
        dedup_key c ≠ dedup_key (withColumns cast_none row_a1_q1)).
Proof.
  assert (Cleaning cast_none [row_a1_q1; row_a1_q2]
            (df_cleaned cast_none [row_a1_q1; row_a1_q2])) as Hclean.
  { exists (candidates cast_none [row_a1_q1; row_a1_q2]). split; reflexivity. }
  assert (row_a1_q1 ∈ [row_a1_q1; row_a1_q2]) as Hin by (left).
  split; [exact Hclean|]. split; [exact Hin|].
  exact (cleaning_survival cast_none _ _ _ Hclean Hin).
Defined.

(** C8 as stated fails: the cleaned table of a row with a null invoice date
    has a row without timestamp, and step 6 does not fail on it. *)
Lemma enrichment_accepts_missing_timestamp :
  (∃ r, r ∈ df_cleaned cast_none [row_no_date] ∧ InvoiceDate r = None) ∧
  Enrichment (df_cleaned cast_none [row_no_date]) ≠ inl InvalidTimestampError.
Proof.
  split; [|done].
  exists (withColumns cast_none row_no_date). split; [in_table | reflexivity].
Qed.


(** The in-order runs on the sample tables. *)
Lemma sample_pair_Cleaning :
  Cleaning cast_none sample_pair (df_cleaned cast_none sample_pair).
Proof. exists (candidates cast_none sample_pair). split; reflexivity. Defined.

Lemma sample_mixed_Cleaning :
  Cleaning cast_none sample_mixed (df_cleaned cast_none sample_mixed).
Proof. exists (candidates cast_none sample_mixed). split; reflexivity. Defined.

(** [cleaning_unique_keys] on two rows with one key. *)
Lemma cleaning_unique_keys_witness :
  Cleaning cast_none sample_pair (df_cleaned cast_none sample_pair) ∧
  (∀ i j c c', df_cleaned cast_none sample_pair !! i = Some c →
               df_cleaned cast_none sample_pair !! j = Some c' → i ≠ j →
               dedup_key c ≠ dedup_key c') ∧
  (∀ c, c ∈ candidates cast_none sample_pair →
        length (group dedup_key (dedup_key c)
                      (df_cleaned cast_none sample_pair)) = 1%nat).
Proof.
  split; [exact sample_pair_Cleaning|].
  exact (cleaning_unique_keys cast_none _ _ sample_pair_Cleaning).
Defined.


(** [recency_nonnegative] on the customer of the latest purchase. *)
Lemma recency_nonnegative_witness :
  sample_customer ∈ customer_rfm (df_cleaned cast_none sample_mixed) ∧
  Recency sample_customer =
    datediff (max_date (df_cleaned cast_none sample_mixed))
             (LastPurchaseDate sample_customer) ∧
  (∀ t, max_date (df_cleaned cast_none sample_mixed) = Some t →
        LastPurchaseDate sample_customer = Some t →
        Recency sample_customer = Some 0) ∧
  (∀ d, Recency sample_customer = Some d → 0 ≤ d).
Proof.
  assert (sample_customer ∈ customer_rfm (df_cleaned cast_none sample_mixed))
    as Hin by in_table.
  split; [exact Hin|].
  exact (recency_nonnegative _ _ Hin).
Defined.

(** [total_orders_row_count] on a country with two rows of one invoice. *)
Lemma total_orders_row_count_witness :
  Cleaning cast_none sample_mixed (df_cleaned cast_none sample_mixed) ∧
  sample_country ∈ country_sales (df_cleaned cast_none sample_mixed) ∧
  TotalOrders sample_country =
    length (group Country (co_Country sample_country)
                  (df_cleaned cast_none sample_mixed)) ∧
  (countDistinct (Invoice <$> group Country (co_Country sample_country)
                                    (df_cleaned cast_none sample_mixed))
     ≤ TotalOrders sample_country)%nat.
Proof.
  assert (sample_country ∈ country_sales (df_cleaned cast_none sample_mixed))
    as Hin by in_table.
  split; [exact sample_mixed_Cleaning|]. split; [exact Hin|].
  exact (total_orders_row_count cast_none _ _ _ sample_mixed_Cleaning Hin).
Defined.

(** Two rows of one invoice: TotalOrders is 2, the distinct invoices are 1. *)
Example total_orders_counts_rows_not_invoices :
  TotalOrders sample_country = 2%nat ∧
  countDistinct (Invoice <$> group Country (co_Country sample_country)
                                   (df_cleaned cast_none sample_mixed)) = 1%nat.
Proof. split; reflexivity. Qed.


(** One known customer and anonymous rows: the summary reports 2. *)
Example unique_customers_counts_null :
  unique_customers (df_cleaned cast_none sample_mixed) = 2%nat ∧
  countDistinct (CustomerID <$> df_cleaned cast_none sample_mixed) = 1%nat.
Proof. split; reflexivity. Qed.


(** * The further properties on sample data *)

Lemma sample_dated_Cleaning :
  Cleaning cast_none sample_dated (df_cleaned cast_none sample_dated).
Proof. exists (candidates cast_none sample_dated). split; reflexivity. Defined.

Lemma sample_sheets_Cleaning :
  Cleaning cast_none (df_raw sample_sheet_2009 sample_sheet_2010)
    (df_cleaned cast_none (df_raw sample_sheet_2009 sample_sheet_2010)).
Proof.
  exists (candidates cast_none (df_raw sample_sheet_2009 sample_sheet_2010)).
  split; reflexivity.
Defined.

(** [nonpositive_rows_invisible] on a return of five items. *)
Lemma nonpositive_rows_invisible_witness :
  (¬ pos_long (raw_Quantity row_return) ∨
   ¬ pos_double (raw_Price row_return)) ∧
  candidates cast_none ([row_a1_q1] ++ row_return :: [row_later]) =
    candidates cast_none ([row_a1_q1] ++ [row_later]) ∧
  (Cleaning cast_none ([row_a1_q1] ++ row_return :: [row_later])
            (df_cleaned cast_none sample_dated) ↔
   Cleaning cast_none ([row_a1_q1] ++ [row_later])
            (df_cleaned cast_none sample_dated)).
Proof.
  assert (¬ pos_long (raw_Quantity row_return) ∨
          ¬ pos_double (raw_Price row_return)) as Hret.
  { left. simpl. lia. }
  split; [exact Hret|].
  exact (nonpositive_rows_invisible cast_none [row_a1_q1] row_return
           [row_later] (df_cleaned cast_none sample_dated) Hret).
Defined.


(** [cleaning_row_count] on two rows with one key. *)
Lemma cleaning_row_count_witness :
  df_cleaned cast_none sample_pair ⊆+ candidates cast_none sample_pair ∧
  length (df_cleaned cast_none sample_pair) =
    length (remove_dups (dedup_key <$> candidates cast_none sample_pair)) ∧
  (length (df_cleaned cast_none sample_pair) ≤ length sample_pair)%nat.
Proof. exact (cleaning_row_count cast_none _ _ sample_pair_Cleaning). Defined.

(** [cleaning_keeps_all_iff] on a table without colliding rows. *)
Lemma cleaning_keeps_all_iff_witness :
  df_cleaned cast_none sample_mixed ≡ₚ candidates cast_none sample_mixed ↔
  NoDup (dedup_key <$> candidates cast_none sample_mixed).
Proof. exact (cleaning_keeps_all_iff cast_none _ _ sample_mixed_Cleaning). Defined.

(** [order_counts_add_up] on three rows. *)
Lemma order_counts_add_up_witness :
  sum_list (Frequency <$> customer_rfm (df_cleaned cast_none sample_mixed)) =
    length (df_cleaned cast_none sample_mixed) ∧
  sum_list (TotalOrders <$> country_sales (df_cleaned cast_none sample_mixed)) =
    length (df_cleaned cast_none sample_mixed) ∧
  sum_list (MonthlyOrders <$>
              monthly_trends (df_enriched (df_cleaned cast_none sample_mixed))) =
    length (df_cleaned cast_none sample_mixed).
Proof. exact (order_counts_add_up cast_none _ _ sample_mixed_Cleaning). Defined.




(** [last_purchase_is_latest] on the customer of one purchase. *)
Lemma last_purchase_is_latest_witness :
  sample_customer ∈ customer_rfm (df_cleaned cast_none sample_mixed) ∧
  LastPurchaseDate sample_customer = Some ts_2010_12_01_0826 ∧
  (∃ r, r ∈ df_cleaned cast_none sample_mixed ∧
        CustomerID r = cs_CustomerID sample_customer ∧
        InvoiceDate r = Some ts_2010_12_01_0826) ∧
  (∀ r t', r ∈ df_cleaned cast_none sample_mixed →
           CustomerID r = cs_CustomerID sample_customer →
           InvoiceDate r = Some t' → t' ≤ ts_2010_12_01_0826) ∧
  (∃ e, max_date (df_cleaned cast_none sample_mixed) = Some e ∧
        ts_2010_12_01_0826 ≤ e).
Proof.
  assert (sample_customer ∈ customer_rfm (df_cleaned cast_none sample_mixed))
    as Hin by in_table.
  split; [exact Hin|]. split; [reflexivity|].
  exact (last_purchase_is_latest _ _ _ Hin eq_refl).
Defined.

(** [recency_antitone] on two customers who bought three days apart. *)
Lemma recency_antitone_witness :
  sample_early_customer ∈ customer_rfm (df_cleaned cast_none sample_dated) ∧
  sample_late_customer ∈ customer_rfm (df_cleaned cast_none sample_dated) ∧
  ts_2010_12_01_0826 ≤ ts_2010_12_04_0826 ∧
  ∃ d1 d2, Recency sample_early_customer = Some d1 ∧
           Recency sample_late_customer = Some d2 ∧ d2 ≤ d1.
Proof.
  assert (sample_early_customer ∈ customer_rfm (df_cleaned cast_none sample_dated))
    as H1 by in_table.
  assert (sample_late_customer ∈ customer_rfm (df_cleaned cast_none sample_dated))
    as H2 by in_table.
  assert (ts_2010_12_01_0826 ≤ ts_2010_12_04_0826) as Hle
    by (unfold ts_2010_12_01_0826, ts_2010_12_04_0826; lia).
  split; [exact H1|]. split; [exact H2|]. split; [exact Hle|].
  exact (recency_antitone _ _ _ _ _ H1 H2 eq_refl eq_refl Hle).
Defined.

(** [unique_customers_bounds] on a country with one known customer. *)
Lemma unique_customers_bounds_witness :
  sample_country ∈ country_sales (df_cleaned cast_none sample_mixed) ∧
  (UniqueCustomers sample_country ≤ TotalOrders sample_country)%nat ∧
  (UniqueCustomers sample_country ≤
     unique_customers (df_cleaned cast_none sample_mixed))%nat.
Proof.
  assert (sample_country ∈ country_sales (df_cleaned cast_none sample_mixed))
    as Hin by in_table.
  split; [exact Hin|].
  exact (unique_customers_bounds cast_none _ _ _ sample_mixed_Cleaning Hin).
Defined.

(** [summary_counts] on three rows. *)
Lemma summary_counts_witness :
  total_orders (df_cleaned cast_none sample_mixed) =
    countDistinct (Invoice <$> df_cleaned cast_none sample_mixed) ∧
  unique_products (df_cleaned cast_none sample_mixed) =
    countDistinct (StockCode <$> df_cleaned cast_none sample_mixed) ∧
  (total_orders (df_cleaned cast_none sample_mixed) ≤
     length (df_cleaned cast_none sample_mixed))%nat ∧
  (unique_products (df_cleaned cast_none sample_mixed) ≤
     length (df_cleaned cast_none sample_mixed))%nat ∧
  (unique_customers (df_cleaned cast_none sample_mixed) ≤
     length (df_cleaned cast_none sample_mixed))%nat.
Proof. exact (summary_counts cast_none _ _ sample_mixed_Cleaning). Defined.

(** [features_in_range] on a purchase of Wednesday 1 December 2010, 08:26. *)
Lemma features_in_range_witness :
  add_features (withColumns cast_none row_a1_q1) ∈
    df_enriched (df_cleaned cast_none sample_mixed) ∧
  ∃ m q h d mn,
    Month (add_features (withColumns cast_none row_a1_q1)) = Some m ∧
    1 ≤ m ≤ 12 ∧
    Quarter (add_features (withColumns cast_none row_a1_q1)) = Some q ∧
    1 ≤ q ≤ 4 ∧ 3 * q - 2 ≤ m ≤ 3 * q ∧
    Hour (add_features (withColumns cast_none row_a1_q1)) = Some h ∧
    0 ≤ h ≤ 23 ∧
    DayName (add_features (withColumns cast_none row_a1_q1)) = Some d ∧
    d ∈ day_names ∧
    MonthName (add_features (withColumns cast_none row_a1_q1)) = Some mn ∧
    month_names !! Z.to_nat (m - 1) = Some mn.
Proof.
  assert (add_features (withColumns cast_none row_a1_q1) ∈
            df_enriched (df_cleaned cast_none sample_mixed)) as Hin by in_table.
  split; [exact Hin|].
  exact (features_in_range _ _ ts_2010_12_01_0826 Hin eq_refl).
Defined.

(** The sample purchase: December, fourth quarter, 8 o'clock, a Wednesday. *)
Example features_of_sample :
  let e := add_features (withColumns cast_none row_a1_q1) in
  Year e = Some 2010 ∧ Month e = Some 12 ∧ Quarter e = Some 4 ∧
  DayName e = Some "Wednesday"%string ∧ Hour e = Some 8 ∧
  MonthName e = Some "December"%string.
Proof. repeat split. Qed.

(** [fiscal_year_labels] on two sheets of one and two rows. *)
Lemma fiscal_year_labels_witness :
  let cleaned :=
    df_cleaned cast_none (df_raw sample_sheet_2009 sample_sheet_2010) in
  (∀ c, c ∈ cleaned → fiscal_year c ∈ fiscal_years) ∧
  (∀ m, m ∈ monthly_trends (df_enriched cleaned) →
        mt_fiscal_year m ∈ fiscal_years) ∧
  (length (retail_cleaned cleaned) ≤ 2)%nat.
Proof.
  exact (fiscal_year_labels cast_none _ _ _ sample_sheets_Cleaning).
Defined.
